(* A shallow embedding of logger.go (package logger, telemetry-gokit-log):
   the Logger facade over a Go kit sink, with its shared atomic level cell,
   its per-call key-value assembly and its derivation operations.

   Go heap: the `*int32` level cells and the `*Logger` objects live in two
   finite maps indexed by one address counter; every `&Logger{...}` and
   every `new(int32)` takes a fresh address.  The sink calls and metric
   records the code performs are appended to a trace.  A nil or dangling
   pointer dereference (a Go panic) is `None`. *)

From Stdlib Require Import ZArith Lia.
From stdpp Require Import base gmap list strings.

Open Scope Z_scope.

(** Go values stored in `[]interface{}`. *)
Inductive Val :=
| VString (s : string)
| VInt (z : Z)
| VNil
| VError (e : nat)
| VOther (n : nat).

(** A Go `error`: nil or an error value. *)
Definition GoError := option nat.

(** Converting an `error` to `interface{}`: a nil error is the nil interface. *)
Definition val_of_error (e : GoError) : Val :=
  match e with None => VNil | Some n => VError n end.

(** type Level int32 and its constants. *)
Definition Level := Z.
Definition None_ : Level := 0.
Definition Error_ : Level := 1.
Definition Info_ : Level := 5.
Definition Debug_ : Level := 10.

(** var levelToString = map[Level]string{...} *)
Definition levelToString : gmap Z string :=
  list_to_map [(None_, "none"); (Error_, "error"); (Info_, "info"); (Debug_, "debug")].

(** var stringToLevel = map[string]Level{...} *)
Definition stringToLevel : gmap string Z :=
  list_to_map [("none", None_); ("error", Error_); ("info", Info_); ("debug", Debug_)].


(** Go heap addresses. *)
Abbreviation loc := nat (only parsing).

Section LoggerModel.

(* context.Context, telemetry.Metric and log.Logger are interfaces of
   other packages: they stay abstract. *)
Context {Ctx MetricT SinkT : Type}.
(* telemetry.KeyValuesFromContext *)
Variable KeyValuesFromContext : Ctx -> list Val.
(* context.Background() *)
Variable Background : Ctx.
(* the error result of the sink's Log(keyvals ...interface{}) error *)
Variable Log : SinkT -> list Val -> GoError.

(** type Logger struct { ctx; args; metric; lvl *int32; logger } *)
Record Logger := mkLogger {
  ctx : Ctx;
  args : list Val;
  metric : option MetricT;
  lvl : loc;
  logger : SinkT
}.

(** Observable effects: a call of the sink's Log, a metric's RecordContext. *)
Inductive Event :=
| ESinkLog (s : SinkT) (kvs : list Val)
| EMetricRecord (m : MetricT) (c : Ctx) (inc : Z).

Record State := mkState {
  cells : gmap loc Z;
  objs : gmap loc Logger;
  trace : list Event;
  next : loc
}.

Definition empty_state : State := mkState ∅ ∅ [] 0%nat.

Definition alloc_cell (st : State) (v : Z) : State * loc :=
  (mkState (<[next st := v]> (cells st)) (objs st) (trace st) (S (next st)),
   next st).

Definition alloc_obj (st : State) (o : Logger) : State * loc :=
  (mkState (cells st) (<[next st := o]> (objs st)) (trace st) (S (next st)),
   next st).

Definition record_event (st : State) (e : Event) : State :=
  mkState (cells st) (objs st) (trace st ++ [e]) (next st).

(** atomic.LoadInt32(p) *)
Definition load_int32 (st : State) (p : loc) : option Z := cells st !! p.

(** atomic.StoreInt32(p, v) *)
Definition store_int32 (st : State) (p : loc) (v : Z) : State :=
  mkState (<[p := v]> (cells st)) (objs st) (trace st) (next st).

(** The current threshold seen through the logger at address p. *)
Definition currentLevel (st : State) (p : loc) : option Z :=
  o ← objs st !! p; load_int32 st (lvl o).

(** func New(logger log.Logger) *Logger *)
Definition New (sink : SinkT) (st : State) : State * loc :=
  let '(st1, c) := alloc_cell st Info_ in
  alloc_obj st1 (mkLogger Background [] None c sink).

(** The normalisation of SetLevel's if / else if / else. *)
Definition normalize_level (l : Level) : Level :=
  if l <? Info_ then Error_ else if l <? Debug_ then Info_ else Debug_.

(** func (l *Logger) SetLevel(lvl Level) *)
Definition SetLevel (st : State) (p : loc) (l : Level) : option State :=
  o ← objs st !! p;
  Some (store_int32 st (lvl o) (normalize_level l)).

(** `_ = l.logger.Log(args...)`: the call is made, its error dropped. *)
Definition sink_log (st : State) (o : Logger) (a : list Val) : State :=
  let _err := Log (logger o) a in
  record_event st (ESinkLog (logger o) a).

(** `l.metric.RecordContext(l.ctx, 1)` when a metric is set. *)
Definition record_metric (st : State) (o : Logger) : State :=
  match metric o with
  | Some m => record_event st (EMetricRecord m (ctx o) 1)
  | None => st
  end.

(** func (l *Logger) Debug(msg string, keyValues ...interface{}) *)
Definition Debug (st : State) (p : loc) (msg : string) (keyValues : list Val)
  : option State :=
  o ← objs st !! p;
  v ← load_int32 st (lvl o);
  if v <? Debug_ then Some st else
  let a := [VString "msg"; VString msg; VString "level"; VString "debug"]
           ++ KeyValuesFromContext (ctx o) ++ args o ++ keyValues in
  Some (sink_log st o a).

(** func (l *Logger) Info(msg string, keyValues ...interface{}) *)
Definition Info (st : State) (p : loc) (msg : string) (keyValues : list Val)
  : option State :=
  o ← objs st !! p;
  let st1 := record_metric st o in
  v ← load_int32 st1 (lvl o);
  if v <? Info_ then Some st1 else
  let a := [VString "msg"; VString msg; VString "level"; VString "info"]
           ++ KeyValuesFromContext (ctx o) ++ args o ++ keyValues in
  Some (sink_log st1 o a).

(** func (l *Logger) Error(msg string, err error, keyValues ...interface{}) *)
Definition Error (st : State) (p : loc) (msg : string) (err : GoError)
  (keyValues : list Val) : option State :=
  o ← objs st !! p;
  let st1 := record_metric st o in
  v ← load_int32 st1 (lvl o);
  if v <? Error_ then Some st1 else
  let a := [VString "msg"; VString msg; VString "level"; VString "error";
            VString "error"; val_of_error err]
           ++ KeyValuesFromContext (ctx o) ++ args o ++ keyValues in
  Some (sink_log st1 o a).

(** The loop of With:
      for i := 0; i < len(keyValues); i += 2 {
        if k, ok := keyValues[i].(string); ok {
          newLogger.args = append(newLogger.args, k, keyValues[i+1]) } }
    keyValues[i+1] out of range is a panic (None). *)
Fixpoint with_loop (kvs : list Val) : option (list Val) :=
  match kvs with
  | [] => Some []
  | VString k :: rest =>
      match rest with
      | v :: rest' => r ← with_loop rest'; Some (VString k :: v :: r)
      | [] => None
      end
  | _ :: rest =>
      match rest with
      | _ :: rest' => with_loop rest'
      | [] => Some []
      end
  end.

(** `if len(keyValues)%2 != 0 { keyValues = append(keyValues, "(MISSING)") }` *)
Definition pad_missing (kvs : list Val) : list Val :=
  if negb (Nat.eqb (Nat.modulo (length kvs) 2) 0)
  then kvs ++ [VString "(MISSING)"] else kvs.

(** func (l *Logger) With(keyValues ...interface{}) telemetry.Logger *)
Definition With (st : State) (p : loc) (keyValues : list Val)
  : option (State * loc) :=
  match keyValues with
  | [] => Some (st, p)
  | _ =>
      o ← objs st !! p;
      let kvs := pad_missing keyValues in
      extra ← with_loop kvs;
      Some (alloc_obj st (mkLogger (ctx o) (args o ++ extra) (metric o)
                            (lvl o) (logger o)))
  end.

(** func (l *Logger) Context(ctx context.Context) telemetry.Logger *)
Definition Context (st : State) (p : loc) (c : Ctx) : option (State * loc) :=
  o ← objs st !! p;
  Some (alloc_obj st (mkLogger c (args o) (metric o) (lvl o) (logger o))).

(** func (l *Logger) Metric(m telemetry.Metric) telemetry.Logger *)
Definition Metric (st : State) (p : loc) (m : MetricT) : option (State * loc) :=
  o ← objs st !! p;
  Some (alloc_obj st (mkLogger (ctx o) (args o) (Some m) (lvl o) (logger o))).

(** Derivation operations, applied to a logger's address. *)
Inductive Derivation :=
| DWith (kvs : list Val)
| DContext (c : Ctx)
| DMetric (m : MetricT).

Definition derive (st : State) (p : loc) (d : Derivation) : option (State * loc) :=
  match d with
  | DWith kvs => With st p kvs
  | DContext c => Context st p c
  | DMetric m => Metric st p m
  end.

(** Any call of the package's API, as a client program performs it. *)
Inductive Op :=
| OpNew (s : SinkT)
| OpSetLevel (p : loc) (l : Level)
| OpDebug (p : loc) (msg : string) (kvs : list Val)
| OpInfo (p : loc) (msg : string) (kvs : list Val)
| OpError (p : loc) (msg : string) (err : GoError) (kvs : list Val)
| OpDerive (p : loc) (d : Derivation).

Definition exec (st : State) (op : Op) : option State :=
  match op with
  | OpNew s => Some (New s st).1
  | OpSetLevel p l => SetLevel st p l
  | OpDebug p msg kvs => Debug st p msg kvs
  | OpInfo p msg kvs => Info st p msg kvs
  | OpError p msg err kvs => Error st p msg err kvs
  | OpDerive p d => fst <$> derive st p d
  end.

Fixpoint run (st : State) (ops : list Op) : option State :=
  match ops with
  | [] => Some st
  | op :: rest => st' ← exec st op; run st' rest
  end.

(** The loggers derived from [root]: the root itself, and any result of a
    derivation applied to a member, while any other calls interleave. *)
Inductive family (st0 : State) (root : loc) : State -> list loc -> Prop :=
| fam_root : family st0 root st0 [root]
| fam_derive st fam p d st' q :
    family st0 root st fam -> p ∈ fam -> derive st p d = Some (st', q) ->
    family st0 root st' (q :: fam)
| fam_other st fam op st' :
    family st0 root st fam -> exec st op = Some st' ->
    family st0 root st' fam.

(** A heap that only points inside itself: addresses from [next] on are
    free, and every logger's level pointer is allocated. *)
Definition wf (st : State) : Prop :=
  (forall k, (next st <= k)%nat -> cells st !! k = None /\ objs st !! k = None) /\
  (forall p o, objs st !! p = Some o -> is_Some (cells st !! lvl o)).

Definition sink_calls (t : list Event) : list (SinkT * list Val) :=
  omap (fun e => match e with ESinkLog s a => Some (s, a) | _ => None end) t.

Definition metric_records (t : list Event) : list (MetricT * Ctx * Z) :=
  omap (fun e => match e with EMetricRecord m c i => Some (m, c, i) | _ => None end) t.

(** The spec's reading of With's input: the flat sequence, padded with
    "(MISSING)" when its count is odd, read as (key, value) pairs; the
    pairs with a string key survive, in input order. *)
Definition spec_pad (kvs : list Val) : list Val :=
  if Nat.odd (length kvs) then kvs ++ [VString "(MISSING)"] else kvs.

Fixpoint spec_pairs (kvs : list Val) : list (Val * Val) :=
  match kvs with
  | k :: v :: rest => (k, v) :: spec_pairs rest
  | _ => []
  end.

Definition is_string (v : Val) : bool :=
  match v with VString _ => true | _ => false end.

Definition spec_with_fields (ancestor : list Val) (kvs : list Val) : list Val :=
  ancestor ++ concat (map (fun '(k, v) => [k; v])
                        (filter (fun kv => is_string kv.1 = true)
                           (spec_pairs (spec_pad kvs)))).

Definition metric_events (o : Logger) : list Event :=
  match metric o with
  | Some m => [EMetricRecord m (ctx o) 1]
  | None => []
  end.

Definition surviving (l : list Val) : list Val :=
  concat (map (fun '(k, v) => [k; v])
            (filter (fun kv => is_string kv.1 = true) (spec_pairs l))).

(** Every level cell holds one of the three tiers SetLevel can store. *)
Definition cells_tiers (st : State) : Prop :=
  forall k v, cells st !! k = Some v -> v ∈ [Error_; Info_; Debug_].

(** The number of sink calls a step from [st] to [st'] made. *)
Definition emitted (st st' : State) : nat :=
  length (sink_calls (drop (length (trace st)) (trace st'))).

(** A flat key-value list made of (string key, value) pairs. *)
Fixpoint kv_pairs_ok (l : list Val) : bool :=
  match l with
  | [] => true
  | VString _ :: _ :: rest => kv_pairs_ok rest
  | _ => false
  end.

(** Every logger object's fields are (string key, value) pairs. *)
Definition fields_ok (st : State) : Prop :=
  forall p o, objs st !! p = Some o -> kv_pairs_ok (args o) = true.

(** * Heap lemmas *)

Lemma wf_lt (st : State) (p : loc) (o : Logger) :
  wf st -> objs st !! p = Some o -> (p < next st)%nat.
Proof.
  intros [Hfree _] Hp. destruct (Nat.lt_ge_cases p (next st)) as [|Hge]; [done|].
  destruct (Hfree p Hge) as [_ Hn]. congruence.
Qed.

Lemma wf_alloc_obj (st : State) (o : Logger) :
  wf st -> is_Some (cells st !! lvl o) -> wf (alloc_obj st o).1.
Proof.
  intros [Hfree Hcell] Ho. split; simpl.
  - intros k Hk. destruct (Hfree k) as [Hc Hob]; [lia|].
    split; [done|]. rewrite lookup_insert_ne; [done|lia].
  - intros p o' Hp. destruct (decide (next st = p)) as [<-|Hne].
    + rewrite lookup_insert_eq in Hp. by injection Hp as <-.
    + rewrite lookup_insert_ne in Hp; [|done]. eauto.
Qed.

Lemma alloc_obj_objs_old (st : State) (o : Logger) (p : loc) (op : Logger) :
  wf st -> objs st !! p = Some op -> objs (alloc_obj st o).1 !! p = Some op.
Proof.
  intros Hwf Hp. pose proof (wf_lt st p op Hwf Hp). simpl.
  rewrite lookup_insert_ne; [done|lia].
Qed.

Lemma wf_record_event (st : State) (e : Event) : wf st -> wf (record_event st e).
Proof. by destruct 1. Qed.

Lemma wf_record_metric (st : State) (o : Logger) : wf st -> wf (record_metric st o).
Proof. unfold record_metric. destruct (metric o); auto using wf_record_event. Qed.

Lemma wf_store (st : State) (p : loc) (v : Z) :
  wf st -> is_Some (cells st !! p) -> wf (store_int32 st p v).
Proof.
  intros [Hfree Hcell] Hp. split; simpl.
  - intros k Hk. destruct (Hfree k Hk) as [Hc Ho]. split; [|done].
    destruct (decide (p = k)) as [<-|Hne].
    + destruct Hp as [x Hx]. congruence.
    + by rewrite lookup_insert_ne.
  - intros q o Hq. destruct (decide (p = lvl o)) as [<-|Hne].
    + by rewrite lookup_insert_eq.
    + rewrite lookup_insert_ne; eauto.
Qed.

Lemma wf_empty : wf empty_state.
Proof. split; simpl; intros; by rewrite ?lookup_empty in *. Qed.

Lemma wf_New (sink : SinkT) (st : State) : wf st -> wf (New sink st).1.
Proof.
  intros [Hfree Hcell]. split; simpl.
  - intros k Hk. destruct (Hfree k) as [Hc Ho]; [lia|].
    rewrite !lookup_insert_ne; [done|lia|lia].
  - intros p o Hp. destruct (decide (S (next st) = p)) as [<-|Hne].
    + rewrite lookup_insert_eq in Hp. injection Hp as <-. simpl.
      by rewrite lookup_insert_eq.
    + rewrite lookup_insert_ne in Hp; [|done].
      destruct (Hcell p o Hp) as [x Hx].
      destruct (decide (next st = lvl o)) as [Heq|Hne'].
      * rewrite Heq, lookup_insert_eq. eauto.
      * rewrite lookup_insert_ne; eauto.
Qed.

Lemma derive_cases (st : State) (p : loc) (d : Derivation) (st' : State) (q : loc) :
  derive st p d = Some (st', q) ->
  (st' = st /\ q = p) \/
  (exists o o', objs st !! p = Some o /\ lvl o' = lvl o /\ logger o' = logger o /\
                (st', q) = alloc_obj st o').
Proof.
  destruct d as [kvs|c|m]; simpl.
  - unfold With. destruct kvs as [|k kvs]; [intros [= <- <-]; by left|].
    destruct (objs st !! p) as [o|] eqn:Ho; simpl; [|done].
    destruct (with_loop _) as [extra|]; simpl; [|done].
    intros [= <- <-]. right.
    exists o, (mkLogger (ctx o) (args o ++ extra) (metric o) (lvl o) (logger o)).
    done.
  - unfold Context. destruct (objs st !! p) as [o|] eqn:Ho; simpl; [|done].
    intros [= <- <-]. right.
    exists o, (mkLogger c (args o) (metric o) (lvl o) (logger o)). done.
  - unfold Metric. destruct (objs st !! p) as [o|] eqn:Ho; simpl; [|done].
    intros [= <- <-]. right.
    exists o, (mkLogger (ctx o) (args o) (Some m) (lvl o) (logger o)). done.
Qed.

Lemma derive_wf (st : State) (p : loc) (d : Derivation) (st' : State) (q : loc) :
  wf st -> derive st p d = Some (st', q) -> wf st'.
Proof.
  intros Hwf Hd. destruct (derive_cases _ _ _ _ _ Hd) as [[-> _]|(o & o' & Ho & Hl & _ & Heq)];
    [done|].
  replace st' with (alloc_obj st o').1 by (by rewrite <- Heq).
  apply wf_alloc_obj; [done|]. rewrite Hl. by apply (proj2 Hwf p).
Qed.

Lemma derive_objs_old (st : State) (p : loc) (d : Derivation) (st' : State) (q : loc)
  (r : loc) (or : Logger) :
  wf st -> derive st p d = Some (st', q) -> objs st !! r = Some or -> objs st' !! r = Some or.
Proof.
  intros Hwf Hd Hr. destruct (derive_cases _ _ _ _ _ Hd) as [[-> _]|(o & o' & Ho & Hl & _ & Heq)];
    [done|].
  replace st' with (alloc_obj st o').1 by (by rewrite <- Heq).
  by apply alloc_obj_objs_old.
Qed.

Lemma derive_new_lvl (st : State) (p : loc) (d : Derivation) (st' : State) (q : loc)
  (o : Logger) :
  derive st p d = Some (st', q) -> objs st !! p = Some o ->
  exists oq, objs st' !! q = Some oq /\ lvl oq = lvl o /\ logger oq = logger o.
Proof.
  intros Hd Hp. destruct (derive_cases _ _ _ _ _ Hd) as [[-> ->]|(o1 & o' & Ho & Hl & Hs & Heq)];
    [eauto|].
  rewrite Hp in Ho. injection Ho as <-. injection Heq as -> ->. simpl.
  rewrite lookup_insert_eq. eauto.
Qed.

(** Every call keeps the heap well formed and never changes an existing
    Logger object; only level cells and the trace are written. *)
Lemma exec_wf_objs (st : State) (op : Op) (st' : State) :
  wf st -> exec st op = Some st' ->
  wf st' /\ (forall r or, objs st !! r = Some or -> objs st' !! r = Some or).
Proof.
  intros Hwf. destruct op as [s|p l|p msg kvs|p msg kvs|p msg err kvs|p d]; simpl.
  - intros [= <-]. split; [by apply wf_New|].
    destruct Hwf as [Hfree _]. intros r or Hr. simpl.
    destruct (decide (S (next st) = r)) as [<-|]; [by rewrite (proj2 (Hfree (S (next st)) ltac:(lia))) in Hr|].
    by rewrite lookup_insert_ne.
  - unfold SetLevel. destruct (objs st !! p) as [o|] eqn:Ho; simpl; [|done].
    intros [= <-]. split; [|done]. apply wf_store; [done|]. by apply (proj2 Hwf p).
  - unfold Debug. destruct (objs st !! p) as [o|]; simpl; [|done].
    destruct (load_int32 st (lvl o)); simpl; [|done].
    case_match; intros [= <-]; [done|]. split; [by apply wf_record_event|done].
  - unfold Info. destruct (objs st !! p) as [o|]; simpl; [|done].
    assert (objs (record_metric st o) = objs st) as Hm
      by (unfold record_metric; by destruct (metric o)).
    destruct (load_int32 _ (lvl o)); simpl; [|done].
    case_match; intros [= <-].
    + split; [by apply wf_record_metric|]. by rewrite Hm.
    + split; [by apply wf_record_event, wf_record_metric|]. simpl. by rewrite Hm.
  - unfold Error. destruct (objs st !! p) as [o|]; simpl; [|done].
    assert (objs (record_metric st o) = objs st) as Hm
      by (unfold record_metric; by destruct (metric o)).
    destruct (load_int32 _ (lvl o)); simpl; [|done].
    case_match; intros [= <-].
    + split; [by apply wf_record_metric|]. by rewrite Hm.
    + split; [by apply wf_record_event, wf_record_metric|]. simpl. by rewrite Hm.
  - destruct (derive st p d) as [[st1 q]|] eqn:Hd; simpl; [|done].
    intros [= <-]. split; [by eapply derive_wf|]. intros; by eapply derive_objs_old.
Qed.

Lemma family_inv (st0 : State) (root : loc) (o : Logger) (st : State) (fam : list loc) :
  wf st0 -> objs st0 !! root = Some o -> family st0 root st fam ->
  wf st /\ root ∈ fam /\
  (forall q, q ∈ fam -> exists oq, objs st !! q = Some oq /\ lvl oq = lvl o).
Proof.
  intros Hwf0 Hroot Hfam. induction Hfam as [|st fam p d st' q Hfam IH Hp Hd|st fam op st' Hfam IH Hop].
  - split; [done|]. split; [set_solver|]. intros q Hq.
    apply list_elem_of_singleton in Hq as ->. eauto.
  - destruct IH as (Hwf & Hr & Hall). split; [by eapply derive_wf|]. split; [set_solver|].
    intros q' Hq'. apply elem_of_cons in Hq' as [->|Hq'].
    + destruct (Hall p Hp) as (op & Hop & Hl).
      destruct (derive_new_lvl _ _ _ _ _ _ Hd Hop) as (oq & Hoq & Hl' & _).
      exists oq. split; [done|congruence].
    + destruct (Hall q' Hq') as (oq & Hoq & Hl). exists oq.
      split; [by eapply derive_objs_old|done].
  - destruct IH as (Hwf & Hr & Hall).
    destruct (exec_wf_objs _ _ _ Hwf Hop) as [Hwf' Hmono].
    split; [done|]. split; [done|]. intros q Hq.
    destruct (Hall q Hq) as (oq & Hoq & Hl). eauto.
Qed.

(** * What one leveled call appends to the trace *)


Lemma Debug_trace (st : State) (p : loc) (o : Logger) (v : Z) (msg : string)
  (kvs : list Val) :
  objs st !! p = Some o -> cells st !! lvl o = Some v ->
  exists st', Debug st p msg kvs = Some st' /\ cells st' = cells st /\
    objs st' = objs st /\ next st' = next st /\
    trace st' = trace st ++
      (if v <? Debug_ then [] else
       [ESinkLog (logger o)
          ([VString "msg"; VString msg; VString "level"; VString "debug"]
           ++ KeyValuesFromContext (ctx o) ++ args o ++ kvs)]).
Proof.
  intros Ho Hv. unfold Debug, load_int32. rewrite Ho. simpl. rewrite Hv. simpl.
  destruct (v <? Debug_); eexists; (split; [done|]); simpl; by rewrite ?app_nil_r.
Qed.

Lemma record_metric_fields (st : State) (o : Logger) :
  cells (record_metric st o) = cells st /\ objs (record_metric st o) = objs st /\
  next (record_metric st o) = next st /\
  trace (record_metric st o) = trace st ++ metric_events o.
Proof.
  unfold record_metric, metric_events. destruct (metric o); simpl; by rewrite ?app_nil_r.
Qed.

Lemma Info_trace (st : State) (p : loc) (o : Logger) (v : Z) (msg : string)
  (kvs : list Val) :
  objs st !! p = Some o -> cells st !! lvl o = Some v ->
  exists st', Info st p msg kvs = Some st' /\ cells st' = cells st /\
    objs st' = objs st /\ next st' = next st /\
    trace st' = trace st ++ metric_events o ++
      (if v <? Info_ then [] else
       [ESinkLog (logger o)
          ([VString "msg"; VString msg; VString "level"; VString "info"]
           ++ KeyValuesFromContext (ctx o) ++ args o ++ kvs)]).
Proof.
  intros Ho Hv. destruct (record_metric_fields st o) as (Hc & Hob & Hn & Ht).
  unfold Info, load_int32. rewrite Ho. simpl. rewrite Hc, Hv. simpl.
  destruct (v <? Info_); eexists; (split; [done|]); simpl;
    rewrite ?Hc, ?Hob, ?Hn, ?Ht, ?app_nil_r, <- ?app_assoc; done.
Qed.

Lemma Error_trace (st : State) (p : loc) (o : Logger) (v : Z) (msg : string)
  (err : GoError) (kvs : list Val) :
  objs st !! p = Some o -> cells st !! lvl o = Some v ->
  exists st', Error st p msg err kvs = Some st' /\ cells st' = cells st /\
    objs st' = objs st /\ next st' = next st /\
    trace st' = trace st ++ metric_events o ++
      (if v <? Error_ then [] else
       [ESinkLog (logger o)
          ([VString "msg"; VString msg; VString "level"; VString "error";
            VString "error"; val_of_error err]
           ++ KeyValuesFromContext (ctx o) ++ args o ++ kvs)]).
Proof.
  intros Ho Hv. destruct (record_metric_fields st o) as (Hc & Hob & Hn & Ht).
  unfold Error, load_int32. rewrite Ho. simpl. rewrite Hc, Hv. simpl.
  destruct (v <? Error_); eexists; (split; [done|]); simpl;
    rewrite ?Hc, ?Hob, ?Hn, ?Ht, ?app_nil_r, <- ?app_assoc; done.
Qed.

Lemma metric_records_metric_events (o : Logger) :
  metric_records (metric_events o) =
  match metric o with Some m => [(m, ctx o, 1)] | None => [] end.
Proof. unfold metric_events. by destruct (metric o). Qed.

Lemma sink_calls_metric_events (o : Logger) : sink_calls (metric_events o) = [].
Proof. unfold metric_events. by destruct (metric o). Qed.

(** * With's padding and loop against the spec's reading *)

Lemma odd_mod2 (n : nat) : Nat.odd n = negb (Nat.eqb (Nat.modulo n 2) 0).
Proof.
  enough (H : forall n, Nat.odd n = negb (Nat.eqb (Nat.modulo n 2) 0) /\
                        Nat.odd (S n) = negb (Nat.eqb (Nat.modulo (S n) 2) 0))
    by apply H.
  intros m. induction m as [|m [IH0 IH1]]; [split; reflexivity|].
  split; [exact IH1|].
  change (Nat.odd (S (S m))) with (Nat.odd m). rewrite IH0.
  replace (S (S m)) with (m + 1 * 2)%nat by lia.
  by rewrite Nat.Div0.mod_add.
Qed.

Lemma pad_missing_spec (kvs : list Val) : pad_missing kvs = spec_pad kvs.
Proof. unfold pad_missing, spec_pad. by rewrite odd_mod2. Qed.

Lemma spec_pad_even (kvs : list Val) : Nat.even (length (spec_pad kvs)) = true.
Proof.
  unfold spec_pad. destruct (Nat.odd (length kvs)) eqn:Ho.
  - rewrite length_app. simpl. rewrite Nat.add_1_r, Nat.even_succ. done.
  - rewrite <- Nat.negb_odd, Ho. done.
Qed.


Lemma with_loop_even (l : list Val) :
  Nat.even (length l) = true -> with_loop l = Some (surviving l).
Proof.
  enough (H : forall n l, (length l <= n)%nat -> Nat.even (length l) = true ->
                          with_loop l = Some (surviving l)) by eauto.
  clear l. intros n. induction n as [|n IH]; intros l Hlen Hev.
  - destruct l; [done|simpl in Hlen; lia].
  - destruct l as [|k [|v l]]; [done|done|].
    assert (Hl : (length l <= n)%nat) by (simpl in Hlen; lia).
    assert (He : Nat.even (length l) = true) by exact Hev.
    unfold surviving. simpl spec_pairs.
    destruct k as [s| | | |]; simpl with_loop; rewrite (IH l Hl He); simpl;
      reflexivity.
Qed.

Lemma With_nonempty (st : State) (p : loc) (o : Logger) (kvs : list Val) :
  kvs <> [] -> objs st !! p = Some o ->
  With st p kvs = Some (alloc_obj st (mkLogger (ctx o) (args o ++ surviving (spec_pad kvs))
                                       (metric o) (lvl o) (logger o))).
Proof.
  intros Hne Ho. unfold With. destruct kvs as [|k kvs]; [done|].
  rewrite Ho. simpl. rewrite pad_missing_spec, with_loop_even by apply spec_pad_even.
  done.
Qed.

Lemma surviving_none (l : list Val) :
  Forall (fun kv => is_string kv.1 = false) (spec_pairs l) -> surviving l = [].
Proof.
  unfold surviving. induction 1 as [|kv prs Hkv _ IH]; [done|].
  rewrite filter_cons_False; [done|]. by rewrite Hkv.
Qed.

(** The trace a leveled call produces depends only on the logger object,
    the level cells and the trace so far. *)
Lemma calls_frame (st st' : State) (p : loc) :
  objs st' !! p = objs st !! p -> cells st' = cells st -> trace st' = trace st ->
  (forall msg kvs, trace <$> Debug st' p msg kvs = trace <$> Debug st p msg kvs) /\
  (forall msg kvs, trace <$> Info st' p msg kvs = trace <$> Info st p msg kvs) /\
  (forall msg err kvs, trace <$> Error st' p msg err kvs = trace <$> Error st p msg err kvs).
Proof.
  intros Ho Hc Ht.
  unfold Debug, Info, Error, load_int32, sink_log, record_metric, record_event.
  rewrite Ho. destruct (objs st !! p) as [o|]; [|done]. simpl.
  split; [|split]; intros.
  - rewrite Hc. destruct (cells st !! lvl o); simpl; [|done].
    case_match; simpl; by rewrite Ht.
  - destruct (metric o); simpl; rewrite Hc; destruct (cells st !! lvl o); simpl; try done;
      case_match; simpl; by rewrite Ht.
  - destruct (metric o); simpl; rewrite Hc; destruct (cells st !! lvl o); simpl; try done;
      case_match; simpl; by rewrite Ht.
Qed.


Lemma tiers_insert (m : gmap loc Z) (k : loc) (w : Z) :
  (forall k v, m !! k = Some v -> v ∈ [Error_; Info_; Debug_]) ->
  w ∈ [Error_; Info_; Debug_] ->
  forall k' v, <[k := w]> m !! k' = Some v -> v ∈ [Error_; Info_; Debug_].
Proof.
  intros Hm Hw k' v. destruct (decide (k = k')) as [<-|Hne].
  - rewrite lookup_insert_eq. by intros [= <-].
  - rewrite lookup_insert_ne by done. apply Hm.
Qed.

Lemma normalize_level_tier (l : Level) : normalize_level l ∈ [Error_; Info_; Debug_].
Proof using.
  unfold normalize_level. rewrite !elem_of_cons.
  destruct (l <? Info_); [left | destruct (l <? Debug_); [right; left | right; right; left]];
    reflexivity.
Qed.

Lemma exec_tiers (st : State) (op : Op) (st' : State) :
  cells_tiers st -> exec st op = Some st' -> cells_tiers st'.
Proof.
  unfold cells_tiers. intros Hst.
  destruct op as [s|p l|p msg kvs|p msg kvs|p msg err kvs|p d]; simpl.
  - intros [= <-]. simpl. apply tiers_insert; [done|set_solver].
  - unfold SetLevel. destruct (objs st !! p); simpl; [|done]. intros [= <-]. simpl.
    apply tiers_insert; [done|apply normalize_level_tier].
  - intros Hd. destruct (objs st !! p) as [o|] eqn:Ho; [|unfold Debug in Hd; by rewrite Ho in Hd].
    destruct (cells st !! lvl o) as [v|] eqn:Hv;
      [|unfold Debug, load_int32 in Hd; rewrite Ho in Hd; simpl in Hd; by rewrite Hv in Hd].
    destruct (Debug_trace st p o v msg kvs Ho Hv) as (st1 & Hst1 & Hc & _).
    rewrite Hst1 in Hd. injection Hd as <-. by rewrite Hc.
  - intros Hd. destruct (objs st !! p) as [o|] eqn:Ho; [|unfold Info in Hd; by rewrite Ho in Hd].
    destruct (cells st !! lvl o) as [v|] eqn:Hv.
    + destruct (Info_trace st p o v msg kvs Ho Hv) as (st1 & Hst1 & Hc & _).
      rewrite Hst1 in Hd. injection Hd as <-. by rewrite Hc.
    + unfold Info, load_int32 in Hd. rewrite Ho in Hd. simpl in Hd.
      rewrite (proj1 (record_metric_fields st o)), Hv in Hd. done.
  - intros Hd. destruct (objs st !! p) as [o|] eqn:Ho; [|unfold Error in Hd; by rewrite Ho in Hd].
    destruct (cells st !! lvl o) as [v|] eqn:Hv.
    + destruct (Error_trace st p o v msg err kvs Ho Hv) as (st1 & Hst1 & Hc & _).
      rewrite Hst1 in Hd. injection Hd as <-. by rewrite Hc.
    + unfold Error, load_int32 in Hd. rewrite Ho in Hd. simpl in Hd.
      rewrite (proj1 (record_metric_fields st o)), Hv in Hd. done.
  - destruct (derive st p d) as [[st1 q]|] eqn:Hd; simpl; [|done]. intros [= <-].
    destruct (derive_cases _ _ _ _ _ Hd) as [[-> _]|(o1 & o' & _ & _ & _ & Heq)]; [done|].
    injection Heq as -> _. done.
Qed.

Lemma run_tiers (st : State) (ops : list Op) (st' : State) :
  cells_tiers st -> run st ops = Some st' -> cells_tiers st'.
Proof.
  revert st. induction ops as [|op ops IH]; simpl; intros st Hst.
  - by intros [= <-].
  - destruct (exec st op) as [st1|] eqn:He; simpl; [|done].
    apply IH. by eapply exec_tiers.
Qed.

(** * Claims *)

(** C1: every Logger derived from a root through With, Context and Metric,
    with any other calls in between, points to the root's own level cell:
    all of them read the same threshold at every instant, and after a
    SetLevel through any one of them every one of them reads the new
    (normalised) level. *)
Theorem family_shares_level_cell (st0 : State) (root : loc) (o : Logger)
  (st : State) (fam : list loc) :
  wf st0 -> objs st0 !! root = Some o -> family st0 root st fam ->
  (forall q, q ∈ fam -> exists oq, objs st !! q = Some oq /\ lvl oq = lvl o) /\
  (forall q, q ∈ fam -> currentLevel st q = currentLevel st root) /\
  (forall r l, r ∈ fam -> exists st', SetLevel st r l = Some st' /\
     forall q, q ∈ fam -> currentLevel st' q = Some (normalize_level l)).
Proof.
  intros Hwf0 Hroot Hfam.
  destruct (family_inv _ _ _ _ _ Hwf0 Hroot Hfam) as (Hwf & Hr & Hall).
  split; [done|]. split.
  - intros q Hq. destruct (Hall q Hq) as (oq & Hoq & Hl).
    destruct (Hall root Hr) as (or & Hor & Hl').
    unfold currentLevel. rewrite Hoq, Hor. simpl. by rewrite Hl, Hl'.
  - intros r l Hr'. destruct (Hall r Hr') as (or & Hor & Hl).
    unfold SetLevel. rewrite Hor. simpl. eexists. split; [done|].
    intros q Hq. destruct (Hall q Hq) as (oq & Hoq & Hl').
    unfold currentLevel, load_int32. simpl. rewrite Hoq. simpl.
    by rewrite Hl', Hl, lookup_insert_eq.
Qed.

(** C2: Info and Error record the attached metric exactly once, with the
    logger's context and increment 1, whatever the threshold is (v is any
    value of the level cell); with no metric they record nothing; Debug
    never records a metric. *)
Theorem metric_recorded_once (st : State) (p : loc) (o : Logger) (v : Z)
  (msg : string) (err : GoError) (kvs : list Val) :
  objs st !! p = Some o -> cells st !! lvl o = Some v ->
  (exists st' new, Info st p msg kvs = Some st' /\ trace st' = trace st ++ new /\
     metric_records new = match metric o with Some m => [(m, ctx o, 1)] | None => [] end) /\
  (exists st' new, Error st p msg err kvs = Some st' /\ trace st' = trace st ++ new /\
     metric_records new = match metric o with Some m => [(m, ctx o, 1)] | None => [] end) /\
  (exists st' new, Debug st p msg kvs = Some st' /\ trace st' = trace st ++ new /\
     metric_records new = []).
Proof.
  intros Ho Hv. split; [|split].
  - destruct (Info_trace st p o v msg kvs Ho Hv) as (st' & Hst' & _ & _ & _ & Ht).
    do 2 eexists. split; [exact Hst'|]. split; [exact Ht|].
    unfold metric_records. rewrite omap_app. fold (metric_records (metric_events o)).
    rewrite metric_records_metric_events. destruct (v <? Info_); simpl; by rewrite app_nil_r.
  - destruct (Error_trace st p o v msg err kvs Ho Hv) as (st' & Hst' & _ & _ & _ & Ht).
    do 2 eexists. split; [exact Hst'|]. split; [exact Ht|].
    unfold metric_records. rewrite omap_app. fold (metric_records (metric_events o)).
    rewrite metric_records_metric_events. destruct (v <? Error_); simpl; by rewrite app_nil_r.
  - destruct (Debug_trace st p o v msg kvs Ho Hv) as (st' & Hst' & _ & _ & _ & Ht).
    do 2 eexists. split; [exact Hst'|]. split; [exact Ht|].
    by destruct (v <? Debug_).
Qed.

(** C3: gating.  With the level cell holding v, Debug calls the sink once
    iff v >= Debug (10), Info iff v >= Info (5), Error iff v >= Error (1),
    and otherwise not at all. *)
Theorem gating_sink_calls (st : State) (p : loc) (o : Logger) (v : Z)
  (msg : string) (err : GoError) (kvs : list Val) :
  objs st !! p = Some o -> cells st !! lvl o = Some v ->
  (exists st' new, Debug st p msg kvs = Some st' /\ trace st' = trace st ++ new /\
     length (sink_calls new) = if Debug_ <=? v then 1%nat else 0%nat) /\
  (exists st' new, Info st p msg kvs = Some st' /\ trace st' = trace st ++ new /\
     length (sink_calls new) = if Info_ <=? v then 1%nat else 0%nat) /\
  (exists st' new, Error st p msg err kvs = Some st' /\ trace st' = trace st ++ new /\
     length (sink_calls new) = if Error_ <=? v then 1%nat else 0%nat).
Proof.
  intros Ho Hv. split; [|split].
  - destruct (Debug_trace st p o v msg kvs Ho Hv) as (st' & Hst' & _ & _ & _ & Ht).
    do 2 eexists. split; [exact Hst'|]. split; [exact Ht|].
    destruct (Z.ltb_spec v Debug_), (Z.leb_spec Debug_ v); simpl; lia.
  - destruct (Info_trace st p o v msg kvs Ho Hv) as (st' & Hst' & _ & _ & _ & Ht).
    do 2 eexists. split; [exact Hst'|]. split; [exact Ht|].
    unfold sink_calls. rewrite omap_app. fold (sink_calls (metric_events o)).
    rewrite sink_calls_metric_events.
    destruct (Z.ltb_spec v Info_), (Z.leb_spec Info_ v); simpl; lia.
  - destruct (Error_trace st p o v msg err kvs Ho Hv) as (st' & Hst' & _ & _ & _ & Ht).
    do 2 eexists. split; [exact Hst'|]. split; [exact Ht|].
    unfold sink_calls. rewrite omap_app. fold (sink_calls (metric_events o)).
    rewrite sink_calls_metric_events.
    destruct (Z.ltb_spec v Error_), (Z.leb_spec Error_ v); simpl; lia.
Qed.

(** C4: an emitted line hands the sink, in order: "msg" and the message,
    "level" and the call's own level name, for Error only "error" and the
    error, then the context's pairs, then the logger's fields, then the
    call's pairs.  In particular error("disk full", errX, "path", "/tmp")
    on a fresh logger (threshold Info) whose context contributes nothing
    hands the sink exactly
    ["msg","disk full","level","error","error",errX,"path","/tmp"]. *)
Theorem emitted_key_values (st : State) (p : loc) (o : Logger) (v : Z)
  (msg : string) (err : GoError) (kvs : list Val) :
  objs st !! p = Some o -> cells st !! lvl o = Some v ->
  (Debug_ <= v -> exists st' new, Debug st p msg kvs = Some st' /\
     trace st' = trace st ++ new /\
     sink_calls new = [(logger o, [VString "msg"; VString msg; VString "level"; VString "debug"]
                                  ++ KeyValuesFromContext (ctx o) ++ args o ++ kvs)]) /\
  (Info_ <= v -> exists st' new, Info st p msg kvs = Some st' /\
     trace st' = trace st ++ new /\
     sink_calls new = [(logger o, [VString "msg"; VString msg; VString "level"; VString "info"]
                                  ++ KeyValuesFromContext (ctx o) ++ args o ++ kvs)]) /\
  (Error_ <= v -> exists st' new, Error st p msg err kvs = Some st' /\
     trace st' = trace st ++ new /\
     sink_calls new = [(logger o, [VString "msg"; VString msg; VString "level"; VString "error";
                                   VString "error"; val_of_error err]
                                  ++ KeyValuesFromContext (ctx o) ++ args o ++ kvs)]) /\
  (forall (sink : SinkT) (st0 : State) (errX : GoError),
     KeyValuesFromContext Background = [] ->
     exists st2 new,
       Error (New sink st0).1 (New sink st0).2 "disk full" errX
             [VString "path"; VString "/tmp"] = Some st2 /\
       trace st2 = trace (New sink st0).1 ++ new /\
       sink_calls new = [(sink, [VString "msg"; VString "disk full"; VString "level";
                                 VString "error"; VString "error"; val_of_error errX;
                                 VString "path"; VString "/tmp"])]).
Proof.
  intros Ho Hv. split; [|split; [|split]].
  - intros Hle. destruct (Debug_trace st p o v msg kvs Ho Hv) as (st' & Hst' & _ & _ & _ & Ht).
    do 2 eexists. split; [exact Hst'|]. split; [exact Ht|].
    destruct (Z.ltb_spec v Debug_); [lia|done].
  - intros Hle. destruct (Info_trace st p o v msg kvs Ho Hv) as (st' & Hst' & _ & _ & _ & Ht).
    do 2 eexists. split; [exact Hst'|]. split; [exact Ht|].
    unfold sink_calls. rewrite omap_app. fold (sink_calls (metric_events o)).
    rewrite sink_calls_metric_events. destruct (Z.ltb_spec v Info_); [lia|done].
  - intros Hle. destruct (Error_trace st p o v msg err kvs Ho Hv) as (st' & Hst' & _ & _ & _ & Ht).
    do 2 eexists. split; [exact Hst'|]. split; [exact Ht|].
    unfold sink_calls. rewrite omap_app. fold (sink_calls (metric_events o)).
    rewrite sink_calls_metric_events. destruct (Z.ltb_spec v Error_); [lia|done].
  - intros sink st0 errX Hbg.
    set (o0 := mkLogger Background [] None (next st0) sink).
    assert (Hobj : objs (New sink st0).1 !! (New sink st0).2 = Some o0)
      by (simpl; by rewrite lookup_insert_eq).
    assert (Hcell : cells (New sink st0).1 !! lvl o0 = Some Info_)
      by (simpl; by rewrite lookup_insert_eq).
    destruct (Error_trace _ _ o0 Info_ "disk full" errX [VString "path"; VString "/tmp"]
                Hobj Hcell) as (st2 & Hst2 & _ & _ & _ & Ht).
    do 2 eexists. split; [exact Hst2|]. split; [exact Ht|].
    simpl. by rewrite Hbg.
Qed.

(** C5: SetLevel(l) on a logger never fails and stores one of Error,
    Info, Debug in the shared cell: Error when l < Info, Info when
    Info <= l < Debug, Debug when l >= Debug; the logger then reads it. *)
Theorem SetLevel_normalizes (st : State) (p : loc) (o : Logger) (l : Level) :
  objs st !! p = Some o ->
  exists st' w, SetLevel st p l = Some st' /\ w ∈ [Error_; Info_; Debug_] /\
    cells st' = <[lvl o := w]> (cells st) /\ currentLevel st' p = Some w /\
    (l < Info_ -> w = Error_) /\ (Info_ <= l < Debug_ -> w = Info_) /\
    (Debug_ <= l -> w = Debug_).
Proof using.
  intros Ho. unfold SetLevel. rewrite Ho. simpl.
  exists (store_int32 st (lvl o) (normalize_level l)), (normalize_level l).
  split; [done|]. split.
  { apply normalize_level_tier. }
  split; [done|]. split.
  { unfold currentLevel, load_int32. simpl. rewrite Ho. simpl. by rewrite lookup_insert_eq. }
  unfold normalize_level, Error_, Info_, Debug_.
  destruct (Z.ltb_spec l 5), (Z.ltb_spec l 10); repeat split; intros; lia.
Qed.

(** C6: With on an empty input returns the same logger and allocates
    nothing; otherwise the new logger's fields are the ancestor's fields
    followed by the string-keyed pairs of the input, padded with
    "(MISSING)" when odd, in input order (the other pairs are dropped and
    no failure is raised); with("k") adds ("k", "(MISSING)"). *)
Theorem With_fields (st : State) (p : loc) (o : Logger) (kvs : list Val) :
  objs st !! p = Some o ->
  (kvs = [] -> With st p kvs = Some (st, p)) /\
  (kvs <> [] -> exists st' q o', With st p kvs = Some (st', q) /\
     objs st' !! q = Some o' /\ args o' = spec_with_fields (args o) kvs /\
     ctx o' = ctx o /\ metric o' = metric o /\ lvl o' = lvl o /\ logger o' = logger o) /\
  (forall k : string, exists st' q o', With st p [VString k] = Some (st', q) /\
     objs st' !! q = Some o' /\ args o' = args o ++ [VString k; VString "(MISSING)"]).
Proof.
  intros Ho. split; [|split].
  - by intros ->.
  - intros Hne. rewrite (With_nonempty st p o kvs Hne Ho). do 3 eexists.
    split; [done|]. split; [simpl; by rewrite lookup_insert_eq|]. done.
  - intros k. rewrite (With_nonempty st p o [VString k]) by done. do 3 eexists.
    split; [done|]. split; [simpl; by rewrite lookup_insert_eq|]. done.
Qed.

(** C7: With, Context and Metric leave the ancestor untouched: its object
    (fields, context, metric, sink, level pointer), the level cells and the
    trace are unchanged, so the ancestor's later Debug, Info and Error
    calls produce exactly the trace they would have produced without the
    derivation. *)
Theorem derive_keeps_ancestor (st : State) (p : loc) (o : Logger) (d : Derivation)
  (st' : State) (q : loc) :
  wf st -> objs st !! p = Some o -> derive st p d = Some (st', q) ->
  objs st' !! p = Some o /\ cells st' = cells st /\ trace st' = trace st /\
  (forall msg kvs, trace <$> Debug st' p msg kvs = trace <$> Debug st p msg kvs) /\
  (forall msg kvs, trace <$> Info st' p msg kvs = trace <$> Info st p msg kvs) /\
  (forall msg err kvs, trace <$> Error st' p msg err kvs = trace <$> Error st p msg err kvs).
Proof.
  intros Hwf Ho Hd.
  assert (Hp : objs st' !! p = Some o) by (eapply derive_objs_old; eauto).
  assert (cells st' = cells st /\ trace st' = trace st) as [Hc Ht].
  { destruct (derive_cases _ _ _ _ _ Hd) as [[-> _]|(o1 & o' & _ & _ & _ & Heq)]; [done|].
    injection Heq as -> _. done. }
  split; [done|]. split; [done|]. split; [done|].
  apply calls_frame; [rewrite Hp, Ho; done|done|done].
Qed.

(** C10: With on a non-empty input whose keys are all non-strings (for
    example With(42, "v")) still allocates a new Logger, distinct from the
    ancestor, whose fields equal the ancestor's. *)
Theorem With_nonstring_keys_new_instance (st : State) (p : loc) (o : Logger)
  (kvs : list Val) :
  wf st -> objs st !! p = Some o -> kvs <> [] ->
  Forall (fun kv => is_string kv.1 = false) (spec_pairs (spec_pad kvs)) ->
  exists st' q o', With st p kvs = Some (st', q) /\ q <> p /\
    next st' = S (next st) /\ objs st' !! q = Some o' /\ args o' = args o.
Proof.
  intros Hwf Ho Hne Hall. rewrite (With_nonempty st p o kvs Hne Ho).
  pose proof (wf_lt st p o Hwf Ho). do 3 eexists. split; [done|].
  split; [simpl; lia|]. split; [done|]. split; [simpl; by rewrite lookup_insert_eq|].
  simpl. rewrite surviving_none by done. apply app_nil_r.
Qed.

(** C9: in any program that builds its loggers with New and then makes any
    sequence of calls (SetLevel through any logger, leveled calls,
    derivations), every threshold a logger reads is Error, Info or Debug,
    never None. *)
Theorem threshold_never_none (ops : list Op) (st : State) :
  run empty_state ops = Some st ->
  forall p v, currentLevel st p = Some v -> v ∈ [Error_; Info_; Debug_] /\ v <> None_.
Proof.
  intros Hrun p v Hv.
  assert (Ht : cells_tiers st).
  { eapply run_tiers; [|exact Hrun]. intros k w. simpl. by rewrite lookup_empty. }
  unfold currentLevel, load_int32 in Hv. destruct (objs st !! p) as [o|]; simpl in Hv; [|done].
  pose proof (Ht _ _ Hv) as Hin. split; [done|].
  unfold Error_, Info_, Debug_, None_ in *. set_solver.
Qed.

(** * Further properties of the code *)

(** Derivation results, object by object. *)
Lemma With_obj (st : State) (p : loc) (o : Logger) (kvs : list Val) (st1 : State) (q : loc) :
  objs st !! p = Some o -> With st p kvs = Some (st1, q) ->
  objs st1 !! q = Some (mkLogger (ctx o) (spec_with_fields (args o) kvs) (metric o)
                          (lvl o) (logger o)) /\
  cells st1 = cells st /\ trace st1 = trace st.
Proof using.
  intros Ho Hw. destruct kvs as [|k kvs].
  - injection Hw as <- <-. unfold spec_with_fields, surviving. simpl.
    rewrite app_nil_r, Ho. by destruct o.
  - rewrite (With_nonempty st p o (k :: kvs)) in Hw by done.
    injection Hw as <- <-. simpl. by rewrite lookup_insert_eq.
Qed.

Lemma Context_obj (st : State) (p : loc) (o : Logger) (c : Ctx) (st1 : State) (q : loc) :
  objs st !! p = Some o -> Context st p c = Some (st1, q) ->
  objs st1 !! q = Some (mkLogger c (args o) (metric o) (lvl o) (logger o)) /\
  cells st1 = cells st /\ trace st1 = trace st.
Proof using.
  intros Ho. unfold Context. rewrite Ho. simpl. intros [= <- <-]. simpl.
  by rewrite lookup_insert_eq.
Qed.

Lemma Metric_obj (st : State) (p : loc) (o : Logger) (m : MetricT) (st1 : State) (q : loc) :
  objs st !! p = Some o -> Metric st p m = Some (st1, q) ->
  objs st1 !! q = Some (mkLogger (ctx o) (args o) (Some m) (lvl o) (logger o)) /\
  cells st1 = cells st /\ trace st1 = trace st.
Proof using.
  intros Ho. unfold Metric. rewrite Ho. simpl. intros [= <- <-]. simpl.
  by rewrite lookup_insert_eq.
Qed.

Lemma emitted_app (st st' : State) (new : list Event) :
  trace st' = trace st ++ new -> emitted st st' = length (sink_calls new).
Proof using. intros Ht. unfold emitted. by rewrite Ht, drop_app_length. Qed.

Lemma kv_pairs_ok_app (l1 l2 : list Val) :
  kv_pairs_ok l1 = true -> kv_pairs_ok l2 = true -> kv_pairs_ok (l1 ++ l2) = true.
Proof using.
  enough (H : forall n l1, (length l1 <= n)%nat -> kv_pairs_ok l1 = true ->
                           kv_pairs_ok l2 = true -> kv_pairs_ok (l1 ++ l2) = true) by eauto.
  intros n. induction n as [|n IH]; intros l Hlen H1 H2.
  - destruct l; [done|simpl in Hlen; lia].
  - destruct l as [|[s| | | |] [|v l]]; simpl in *; try done.
    apply IH; [lia|done|done].
Qed.

Lemma surviving_ok (l : list Val) : kv_pairs_ok (surviving l) = true.
Proof using.
  unfold surviving. induction (spec_pairs l) as [|[k v] prs IH]; [done|].
  rewrite filter_cons. destruct k as [s| | | |]; simpl; rewrite ?decide_True by done;
    rewrite ?decide_False by done; simpl; done.
Qed.

Lemma surviving_id (l : list Val) : kv_pairs_ok l = true -> surviving l = l.
Proof using.
  enough (H : forall n l, (length l <= n)%nat -> kv_pairs_ok l = true -> surviving l = l)
    by eauto.
  intros n. induction n as [|n IH]; intros l' Hlen Hok.
  - destruct l'; [done|simpl in Hlen; lia].
  - destruct l' as [|[s| | | |] [|v l']]; simpl in *; try done.
    pose proof (IH l' ltac:(lia) Hok) as Hr. unfold surviving in *. simpl.
    by rewrite Hr.
Qed.


Lemma exec_fields_ok (st : State) (op : Op) (st' : State) :
  wf st -> fields_ok st -> exec st op = Some st' -> fields_ok st'.
Proof.
  intros Hwf Hok Hex.
  assert (Hold : forall o', (forall r lo, objs st' !! r = Some lo -> objs st !! r = Some lo \/ lo = o') ->
                 kv_pairs_ok (args o') = true -> fields_ok st').
  { intros o' Hback Ho' r lo Hr. destruct (Hback r lo Hr) as [H | ->]; [by eapply Hok|done]. }
  destruct op as [s|p l|p msg kvs|p msg kvs|p msg err kvs|p d]; simpl in Hex.
  - injection Hex as <-. apply (Hold (mkLogger Background [] None (next st) s)); [|done].
    intros r lo. simpl. destruct (decide (S (next st) = r)) as [<-|Hne].
    + rewrite lookup_insert_eq. intros [= <-]. by right.
    + rewrite lookup_insert_ne by done. by left.
  - unfold SetLevel in Hex. destruct (objs st !! p); simpl in Hex; [|done].
    injection Hex as <-. exact Hok.
  - unfold Debug in Hex. destruct (objs st !! p) as [o|]; simpl in Hex; [|done].
    destruct (load_int32 st (lvl o)); simpl in Hex; [|done].
    case_match; injection Hex as <-; exact Hok.
  - unfold Info in Hex. destruct (objs st !! p) as [o|]; simpl in Hex; [|done].
    destruct (record_metric_fields st o) as (_ & Hob & _).
    destruct (load_int32 _ (lvl o)); simpl in Hex; [|done].
    case_match; injection Hex as <-; unfold fields_ok; simpl; by rewrite Hob.
  - unfold Error in Hex. destruct (objs st !! p) as [o|]; simpl in Hex; [|done].
    destruct (record_metric_fields st o) as (_ & Hob & _).
    destruct (load_int32 _ (lvl o)); simpl in Hex; [|done].
    case_match; injection Hex as <-; unfold fields_ok; simpl; by rewrite Hob.
  - destruct (derive st p d) as [[st1 q]|] eqn:Hd; simpl in Hex; [|done].
    injection Hex as <-.
    destruct (objs st !! p) as [o|] eqn:Ho;
      [|destruct d as [[|k kvs]|c|m]; simpl in Hd; unfold With, Context, Metric in Hd;
        rewrite ?Ho in Hd; try done; injection Hd as <- <-; exact Hok].
    pose proof (Hok p o Ho) as Hpo.
    assert (Hnew : exists o', objs st1 !! q = Some o' /\ kv_pairs_ok (args o') = true).
    { destruct d as [kvs|c|m]; simpl in Hd.
      - destruct (With_obj _ _ _ _ _ _ Ho Hd) as [Hq _]. eexists; split; [exact Hq|].
        simpl. unfold spec_with_fields. apply kv_pairs_ok_app; [done|apply surviving_ok].
      - destruct (Context_obj _ _ _ _ _ _ Ho Hd) as [Hq _]. eexists; split; [exact Hq|done].
      - destruct (Metric_obj _ _ _ _ _ _ Ho Hd) as [Hq _]. eexists; split; [exact Hq|done]. }
    destruct Hnew as (o' & Hq & Ho').
    intros r lo Hr. destruct (derive_cases _ _ _ _ _ Hd) as [[-> _]|(o1 & o2 & _ & _ & _ & Heq)].
    + by eapply Hok.
    + injection Heq as -> ->. simpl in Hr, Hq. destruct (decide (next st = r)) as [<-|Hne].
      * rewrite Hq in Hr. by injection Hr as <-.
      * rewrite lookup_insert_ne in Hr by done. by eapply Hok.
Qed.


(** SetLevel calls through loggers that share a cell: the last one wins,
    whatever the earlier one stored. *)
Theorem SetLevel_last_wins (st : State) (p q : loc) (op oq : Logger) (l1 l2 : Level) :
  objs st !! p = Some op -> objs st !! q = Some oq -> lvl oq = lvl op ->
  (st1 ← SetLevel st p l1; SetLevel st1 q l2) = SetLevel st q l2.
Proof using.
  intros Hp Hq Hl. unfold SetLevel. rewrite Hp. simpl. rewrite Hq. simpl.
  unfold store_int32. simpl. rewrite Hl. f_equal. f_equal. apply insert_insert_eq.
Qed.

(** Writing back a level the logger reads (Error, Info or Debug) with
    SetLevel changes nothing: the normalisation keeps the three tiers. *)
Theorem SetLevel_read_back (st : State) (p : loc) (v : Z) :
  currentLevel st p = Some v -> v ∈ [Error_; Info_; Debug_] -> SetLevel st p v = Some st.
Proof using.
  unfold currentLevel, load_int32, SetLevel. intros Hv Hin.
  destruct (objs st !! p) as [o|]; simpl in *; [|done].
  assert (Hn : normalize_level v = v).
  { rewrite !elem_of_cons in Hin. unfold normalize_level, Error_, Info_, Debug_ in *.
    destruct Hin as [->|[->|[->|Hnil]]]; [reflexivity..|inversion Hnil]. }
  rewrite Hn. unfold store_int32. rewrite insert_id by done. by destruct st.
Qed.

(** SetLevel is monotone: a higher requested level never yields a lower
    stored threshold. *)
Theorem SetLevel_monotone (st : State) (p : loc) (o : Logger) (l1 l2 : Level)
  (st1 st2 : State) (v1 v2 : Z) :
  objs st !! p = Some o -> l1 <= l2 ->
  SetLevel st p l1 = Some st1 -> SetLevel st p l2 = Some st2 ->
  currentLevel st1 p = Some v1 -> currentLevel st2 p = Some v2 -> v1 <= v2.
Proof using.
  intros Ho Hle H1 H2 Hv1 Hv2.
  unfold SetLevel in H1, H2. rewrite Ho in H1, H2. simpl in H1, H2.
  injection H1 as <-. injection H2 as <-.
  unfold currentLevel, load_int32, store_int32 in Hv1, Hv2. simpl in Hv1, Hv2.
  rewrite Ho in Hv1, Hv2. simpl in Hv1, Hv2. rewrite lookup_insert_eq in Hv1, Hv2.
  injection Hv1 as <-. injection Hv2 as <-.
  unfold normalize_level, Error_, Info_, Debug_.
  destruct (Z.ltb_spec l1 5), (Z.ltb_spec l1 10), (Z.ltb_spec l2 5), (Z.ltb_spec l2 10); lia.
Qed.

(** New gives every root its own level cell: the new root reads Info, and
    neither its creation nor a later SetLevel through it changes what any
    existing logger reads. *)
Theorem New_independent_root (sink : SinkT) (st : State) (r : loc) (or : Logger) :
  wf st -> objs st !! r = Some or ->
  currentLevel (New sink st).1 (New sink st).2 = Some Info_ /\
  currentLevel (New sink st).1 r = currentLevel st r /\
  (forall l st2, SetLevel (New sink st).1 (New sink st).2 l = Some st2 ->
     currentLevel st2 (New sink st).2 = Some (normalize_level l) /\
     currentLevel st2 r = currentLevel st r).
Proof.
  intros Hwf Hr. pose proof (wf_lt st r or Hwf Hr) as Hlt.
  destruct (proj2 Hwf r or Hr) as [w Hw].
  assert (Hcell : lvl or <> next st).
  { intros Heq. destruct (proj1 Hwf (next st) ltac:(lia)) as [Hc _]. congruence. }
  assert (Hr' : objs (New sink st).1 !! r = Some or).
  { simpl. rewrite lookup_insert_ne; [done|lia]. }
  unfold currentLevel, load_int32. rewrite Hr', Hr. simpl.
  split.
  { rewrite lookup_insert_eq. simpl. by rewrite lookup_insert_eq. }
  split.
  { rewrite lookup_insert_ne by lia. done. }
  intros l st2. unfold SetLevel. simpl. rewrite lookup_insert_eq. simpl. intros [= <-]. simpl.
  rewrite lookup_insert_eq. simpl. rewrite lookup_insert_eq. split; [done|].
  rewrite lookup_insert_ne by lia. rewrite Hr. simpl.
  rewrite !lookup_insert_ne by lia. done.
Qed.

(** The levels nest: on one logger, if Debug emits a line then Info and
    Error emit too, and if Info emits then Error emits. *)
Theorem gating_nested (st : State) (p : loc) (o : Logger) (v : Z) (msg : string)
  (err : GoError) (kvs : list Val) (sd si se : State) :
  objs st !! p = Some o -> cells st !! lvl o = Some v ->
  Debug st p msg kvs = Some sd -> Info st p msg kvs = Some si ->
  Error st p msg err kvs = Some se ->
  (emitted st sd = 1%nat -> emitted st si = 1%nat /\ emitted st se = 1%nat) /\
  (emitted st si = 1%nat -> emitted st se = 1%nat).
Proof.
  intros Ho Hv Hd Hi He.
  destruct (Debug_trace st p o v msg kvs Ho Hv) as (sd' & Hd' & _ & _ & _ & Htd).
  destruct (Info_trace st p o v msg kvs Ho Hv) as (si' & Hi' & _ & _ & _ & Hti).
  destruct (Error_trace st p o v msg err kvs Ho Hv) as (se' & He' & _ & _ & _ & Hte).
  rewrite Hd in Hd'; injection Hd' as <-. rewrite Hi in Hi'; injection Hi' as <-.
  rewrite He in He'; injection He' as <-.
  rewrite (emitted_app _ _ _ Htd), (emitted_app _ _ _ Hti), (emitted_app _ _ _ Hte).
  unfold sink_calls. rewrite !omap_app. fold (sink_calls (metric_events o)).
  rewrite sink_calls_metric_events. unfold Debug_, Info_, Error_.
  destruct (Z.ltb_spec v 10), (Z.ltb_spec v 5), (Z.ltb_spec v 1); simpl; lia.
Qed.

(** Two successive With calls accumulate: the fields are the ancestor's,
    then the first call's surviving pairs, then the second call's; the
    context, metric, level cell and sink are the ancestor's. *)
Theorem With_twice (st : State) (p : loc) (o : Logger) (kvs1 kvs2 : list Val)
  (st1 : State) (q1 : loc) (st2 : State) (q2 : loc) :
  objs st !! p = Some o -> With st p kvs1 = Some (st1, q1) -> With st1 q1 kvs2 = Some (st2, q2) ->
  exists o2, objs st2 !! q2 = Some o2 /\
    args o2 = args o ++ surviving (spec_pad kvs1) ++ surviving (spec_pad kvs2) /\
    ctx o2 = ctx o /\ metric o2 = metric o /\ lvl o2 = lvl o /\ logger o2 = logger o.
Proof using.
  intros Ho H1 H2. destruct (With_obj _ _ _ _ _ _ Ho H1) as [Hq1 _].
  destruct (With_obj _ _ _ _ _ _ Hq1 H2) as [Hq2 _].
  eexists. split; [exact Hq2|]. simpl. unfold spec_with_fields.
  by rewrite <- app_assoc.
Qed.

(** In every program that builds its loggers with New, every logger's
    fields form a flat list of (string key, value) pairs. *)
Theorem fields_always_string_keyed (ops : list Op) (st : State) :
  run empty_state ops = Some st ->
  forall p o, objs st !! p = Some o -> kv_pairs_ok (args o) = true.
Proof.
  enough (H : forall st0, wf st0 -> fields_ok st0 -> run st0 ops = Some st -> fields_ok st).
  { intros Hrun. apply (H empty_state wf_empty); [|exact Hrun].
    intros p o. simpl. by rewrite lookup_empty. }
  induction ops as [|op ops IH]; simpl; intros st0 Hwf Hok.
  - by intros [= <-].
  - destruct (exec st0 op) as [st1|] eqn:He; simpl; [|done].
    apply IH; [apply (exec_wf_objs _ _ _ Hwf He)|eapply exec_fields_ok; eauto].
Qed.

(** Attaching a context and adding fields commute: With then Context and
    Context then With give equal Logger objects. *)
Theorem Context_With_commute (st : State) (p : loc) (o : Logger) (c : Ctx) (kvs : list Val)
  (s1 s2 t1 t2 : State) (q1 q2 r1 r2 : loc) :
  objs st !! p = Some o ->
  With st p kvs = Some (s1, q1) -> Context s1 q1 c = Some (s2, q2) ->
  Context st p c = Some (t1, r1) -> With t1 r1 kvs = Some (t2, r2) ->
  objs s2 !! q2 = objs t2 !! r2.
Proof using.
  intros Ho Hw1 Hc1 Hc2 Hw2.
  destruct (With_obj _ _ _ _ _ _ Ho Hw1) as [Hs1 _].
  destruct (Context_obj _ _ _ _ _ _ Hs1 Hc1) as [Hs2 _].
  destruct (Context_obj _ _ _ _ _ _ Ho Hc2) as [Ht1 _].
  destruct (With_obj _ _ _ _ _ _ Ht1 Hw2) as [Ht2 _].
  by rewrite Hs2, Ht2.
Qed.


(** A logger from Metric(m) records m, with the ancestor's context and
    increment 1, on every Info and Error call, whatever the level and
    whatever metric the ancestor had. *)
Theorem Metric_child_records (st : State) (p : loc) (o : Logger) (v : Z) (m : MetricT)
  (st1 : State) (q : loc) (msg : string) (err : GoError) (kvs : list Val) :
  objs st !! p = Some o -> cells st !! lvl o = Some v -> Metric st p m = Some (st1, q) ->
  (exists st2 new, Info st1 q msg kvs = Some st2 /\ trace st2 = trace st1 ++ new /\
     metric_records new = [(m, ctx o, 1)]) /\
  (exists st2 new, Error st1 q msg err kvs = Some st2 /\ trace st2 = trace st1 ++ new /\
     metric_records new = [(m, ctx o, 1)]).
Proof.
  intros Ho Hv Hm. destruct (Metric_obj _ _ _ _ _ _ Ho Hm) as (Hq & Hcells & _).
  rewrite <- Hcells in Hv.
  destruct (Info_trace st1 q _ v msg kvs Hq Hv) as (si & Hi & _ & _ & _ & Hti).
  destruct (Error_trace st1 q _ v msg err kvs Hq Hv) as (se & He & _ & _ & _ & Hte).
  split; do 2 eexists; (split; [eassumption|]); (split; [eassumption|]);
    unfold metric_records; rewrite omap_app; simpl;
    [destruct (v <? Info_) | destruct (v <? Error_)]; reflexivity.
Qed.

(** When the (padded) input of With is already a list of string-keyed
    pairs, the new logger's fields are the ancestor's followed by the input
    verbatim: nothing is dropped or reordered. *)
Theorem With_string_keyed_verbatim (st : State) (p : loc) (o : Logger) (kvs : list Val)
  (st1 : State) (q : loc) :
  objs st !! p = Some o -> kv_pairs_ok (pad_missing kvs) = true ->
  With st p kvs = Some (st1, q) ->
  exists o1, objs st1 !! q = Some o1 /\ args o1 = args o ++ pad_missing kvs.
Proof using.
  intros Ho Hok Hw. destruct (With_obj _ _ _ _ _ _ Ho Hw) as [Hq _].
  eexists. split; [exact Hq|]. simpl. unfold spec_with_fields.
  rewrite <- pad_missing_spec. f_equal. by apply surviving_id.
Qed.

End LoggerModel.

(** C8: no operation reports an error.  On a logger the program holds
    (a valid object with its level cell), Debug, Info, Error, SetLevel,
    With, Context and Metric all return normally, and the result of the
    leveled calls does not depend on what the sink's Log returns: two sinks
    whose Log results differ (one failing, one not) lead to the same state. *)
Theorem no_error_results {Ctx MetricT SinkT : Type} (KeyValuesFromContext : Ctx -> list Val)
  (Log1 Log2 : SinkT -> list Val -> GoError) (st : @State Ctx MetricT SinkT)
  (p : loc) (o : Logger) (msg : string) (err : GoError) (kvs : list Val)
  (l : Level) (c : Ctx) (m : MetricT) :
  objs st !! p = Some o -> is_Some (cells st !! lvl o) ->
  is_Some (Debug KeyValuesFromContext Log1 st p msg kvs) /\
  Debug KeyValuesFromContext Log1 st p msg kvs = Debug KeyValuesFromContext Log2 st p msg kvs /\
  is_Some (Info KeyValuesFromContext Log1 st p msg kvs) /\
  Info KeyValuesFromContext Log1 st p msg kvs = Info KeyValuesFromContext Log2 st p msg kvs /\
  is_Some (Error KeyValuesFromContext Log1 st p msg err kvs) /\
  Error KeyValuesFromContext Log1 st p msg err kvs =
    Error KeyValuesFromContext Log2 st p msg err kvs /\
  is_Some (SetLevel st p l) /\ is_Some (With st p kvs) /\
  is_Some (Context st p c) /\ is_Some (Metric st p m).
Proof.
  intros Ho [v Hv].
  destruct (Debug_trace KeyValuesFromContext Log1 st p o v msg kvs Ho Hv) as (s1 & H1 & _).
  destruct (Info_trace KeyValuesFromContext Log1 st p o v msg kvs Ho Hv) as (s2 & H2 & _).
  destruct (Error_trace KeyValuesFromContext Log1 st p o v msg err kvs Ho Hv) as (s3 & H3 & _).
  split; [rewrite H1; eauto|]. split; [reflexivity|].
  split; [rewrite H2; eauto|]. split; [reflexivity|].
  split; [rewrite H3; eauto|]. split; [reflexivity|].
  split; [unfold SetLevel; rewrite Ho; simpl; eauto|].
  split.
  { destruct kvs as [|k kvs]; [simpl; eauto|].
    rewrite (With_nonempty st p o (k :: kvs)) by done. eauto. }
  split; [unfold Context; rewrite Ho; simpl; eauto|].
  unfold Metric; rewrite Ho; simpl; eauto.
Qed.

(** The two level tables are inverse to each other: every name
    levelToString gives parses back to its level with stringToLevel, and
    every level stringToLevel gives prints back to its name. *)
Theorem level_tables_roundtrip :
  (forall (l : Level) (s : string), levelToString !! l = Some s -> stringToLevel !! s = Some l) /\
  (forall (s : string) (l : Level), stringToLevel !! s = Some l -> levelToString !! l = Some s).
Proof.
  split; intros a b H; apply elem_of_list_to_map_2 in H; rewrite !elem_of_cons in H;
    destruct H as [H|[H|[H|[H|H]]]];
    try (injection H as -> ->; reflexivity); inversion H.
Qed.


(** * Concrete runs *)

(* A context that carries its pairs, nat metrics and sinks, and a sink
   whose Log never fails. *)
Abbreviation TState := (@State (list Val) nat nat).
Abbreviation tkv := (fun c : list Val => c).
Abbreviation tlog := (fun (_ : nat) (_ : list Val) => @None nat).
Abbreviation st_root := (New (Ctx:=list Val) (MetricT:=nat) [] 3%nat empty_state).1.
Abbreviation o_root := (mkLogger (Ctx:=list Val) (MetricT:=nat) [] [] None 0%nat 3%nat).

Lemma wf_st_root : wf st_root.
Proof. apply wf_New, wf_empty. Qed.

Lemma family_shares_level_cell_witness :
  exists (st : TState) fam,
    wf st_root /\ objs st_root !! 1%nat = Some o_root /\
    family tkv [] tlog st_root 1%nat st fam /\ fam = [2%nat; 1%nat] /\
    ((forall q, q ∈ fam -> exists oq, objs st !! q = Some oq /\ lvl oq = lvl o_root) /\
     (forall q, q ∈ fam -> currentLevel st q = currentLevel st 1%nat) /\
     (forall r l, r ∈ fam -> exists st', SetLevel st r l = Some st' /\
        forall q, q ∈ fam -> currentLevel st' q = Some (normalize_level l))).
Proof.
  set (d := DWith (Ctx:=list Val) (MetricT:=nat) [VString "k"; VInt 1]).
  destruct (derive st_root 1%nat d) as [[st q]|] eqn:Hd; [|discriminate Hd].
  assert (Hq : q = 2%nat) by (injection Hd as _ <-; reflexivity). subst q.
  assert (Hfam : family tkv [] tlog st_root 1%nat st [2%nat; 1%nat]).
  { eapply fam_derive; [apply fam_root| |exact Hd]. left. }
  exists st, [2%nat; 1%nat].
  split; [exact wf_st_root|]. split; [reflexivity|]. split; [exact Hfam|].
  split; [reflexivity|].
  apply (family_shares_level_cell tkv [] tlog st_root 1%nat o_root st [2%nat; 1%nat]
           wf_st_root eq_refl Hfam).
Defined.

Lemma metric_recorded_once_witness :
  exists (st : TState) p o,
    Metric st_root 1%nat 7%nat = Some (st, p) /\
    objs st !! p = Some o /\ cells st !! lvl o = Some 5 /\
    ((exists st' new, Info tkv tlog st p "hello" [] = Some st' /\ trace st' = trace st ++ new /\
        metric_records new = match metric o with Some m => [(m, ctx o, 1)] | None => [] end) /\
     (exists st' new, Error tkv tlog st p "hello" None [] = Some st' /\
        trace st' = trace st ++ new /\
        metric_records new = match metric o with Some m => [(m, ctx o, 1)] | None => [] end) /\
     (exists st' new, Debug tkv tlog st p "hello" [] = Some st' /\ trace st' = trace st ++ new /\
        metric_records new = [])).
Proof.
  set (o := mkLogger (Ctx:=list Val) [] [] (Some 7%nat) 0%nat 3%nat).
  exists (alloc_obj st_root o).1, 2%nat, o.
  assert (Ho : objs (alloc_obj st_root o).1 !! 2%nat = Some o) by reflexivity.
  assert (Hv : cells (alloc_obj st_root o).1 !! lvl o = Some 5) by reflexivity.
  split; [reflexivity|]. split; [exact Ho|]. split; [exact Hv|].
  apply (metric_recorded_once tkv tlog _ 2%nat o 5 "hello" None [] Ho Hv).
Defined.

Lemma gating_sink_calls_witness :
  objs st_root !! 1%nat = Some o_root /\ cells st_root !! lvl o_root = Some 5 /\
  (exists st' new, Debug tkv tlog st_root 1%nat "m" [] = Some st' /\
     trace st' = trace st_root ++ new /\
     length (sink_calls new) = if Debug_ <=? 5 then 1%nat else 0%nat) /\
  (exists st' new, Info tkv tlog st_root 1%nat "m" [] = Some st' /\
     trace st' = trace st_root ++ new /\
     length (sink_calls new) = if Info_ <=? 5 then 1%nat else 0%nat) /\
  (exists st' new, Error tkv tlog st_root 1%nat "m" None [] = Some st' /\
     trace st' = trace st_root ++ new /\
     length (sink_calls new) = if Error_ <=? 5 then 1%nat else 0%nat).
Proof.
  split; [reflexivity|]. split; [reflexivity|].
  apply (gating_sink_calls tkv tlog st_root 1%nat o_root 5 "m" None []); reflexivity.
Defined.

Lemma emitted_key_values_witness :
  objs st_root !! 1%nat = Some o_root /\ cells st_root !! lvl o_root = Some 5 /\
  (Debug_ <= 5 -> exists st' new, Debug tkv tlog st_root 1%nat "m" [VInt 1] = Some st' /\
     trace st' = trace st_root ++ new /\
     sink_calls new = [(logger o_root, [VString "msg"; VString "m"; VString "level";
                                        VString "debug"] ++ tkv (ctx o_root)
                                       ++ args o_root ++ [VInt 1])]) /\
  (Info_ <= 5 -> exists st' new, Info tkv tlog st_root 1%nat "m" [VInt 1] = Some st' /\
     trace st' = trace st_root ++ new /\
     sink_calls new = [(logger o_root, [VString "msg"; VString "m"; VString "level";
                                        VString "info"] ++ tkv (ctx o_root)
                                       ++ args o_root ++ [VInt 1])]) /\
  (Error_ <= 5 -> exists st' new, Error tkv tlog st_root 1%nat "m" (Some 4%nat) [VInt 1] = Some st' /\
     trace st' = trace st_root ++ new /\
     sink_calls new = [(logger o_root, [VString "msg"; VString "m"; VString "level";
                                        VString "error"; VString "error";
                                        val_of_error (Some 4%nat)] ++ tkv (ctx o_root)
                                       ++ args o_root ++ [VInt 1])]) /\
  (forall (sink : nat) (st0 : TState) (errX : GoError),
     tkv [] = [] ->
     exists st2 new,
       Error tkv tlog (New [] sink st0).1 (New [] sink st0).2 "disk full" errX
             [VString "path"; VString "/tmp"] = Some st2 /\
       trace st2 = trace (New [] sink st0).1 ++ new /\
       sink_calls new = [(sink, [VString "msg"; VString "disk full"; VString "level";
                                 VString "error"; VString "error"; val_of_error errX;
                                 VString "path"; VString "/tmp"])]).
Proof.
  split; [reflexivity|]. split; [reflexivity|].
  apply (emitted_key_values tkv [] tlog st_root 1%nat o_root 5 "m" (Some 4%nat) [VInt 1]);
    reflexivity.
Defined.

Lemma SetLevel_normalizes_witness :
  objs st_root !! 1%nat = Some o_root /\
  exists st' w, SetLevel st_root 1%nat 7 = Some st' /\ w ∈ [Error_; Info_; Debug_] /\
    cells st' = <[lvl o_root := w]> (cells st_root) /\ currentLevel st' 1%nat = Some w /\
    (7 < Info_ -> w = Error_) /\ (Info_ <= 7 < Debug_ -> w = Info_) /\
    (Debug_ <= 7 -> w = Debug_).
Proof.
  split; [reflexivity|].
  apply (SetLevel_normalizes st_root 1%nat o_root 7). reflexivity.
Defined.

Lemma With_fields_witness :
  objs st_root !! 1%nat = Some o_root /\
  ([VString "a"; VInt 1; VInt 42; VString "v"; VString "k"] = [] ->
     With st_root 1%nat [VString "a"; VInt 1; VInt 42; VString "v"; VString "k"]
     = Some (st_root, 1%nat)) /\
  ([VString "a"; VInt 1; VInt 42; VString "v"; VString "k"] <> [] ->
   exists st' q o', With st_root 1%nat [VString "a"; VInt 1; VInt 42; VString "v"; VString "k"]
     = Some (st', q) /\
     objs st' !! q = Some o' /\
     args o' = spec_with_fields (args o_root) [VString "a"; VInt 1; VInt 42; VString "v"; VString "k"] /\
     ctx o' = ctx o_root /\ metric o' = metric o_root /\ lvl o' = lvl o_root /\
     logger o' = logger o_root) /\
  (forall k : string, exists st' q o', With st_root 1%nat [VString k] = Some (st', q) /\
     objs st' !! q = Some o' /\ args o' = args o_root ++ [VString k; VString "(MISSING)"]).
Proof.
  split; [reflexivity|].
  apply (With_fields st_root 1%nat o_root). reflexivity.
Defined.

Lemma derive_keeps_ancestor_witness :
  exists (st' : TState) q,
    wf st_root /\ objs st_root !! 1%nat = Some o_root /\
    derive st_root 1%nat (DWith [VString "k"; VInt 1]) = Some (st', q) /\
    (objs st' !! 1%nat = Some o_root /\ cells st' = cells st_root /\ trace st' = trace st_root /\
     (forall msg kvs, trace <$> Debug tkv tlog st' 1%nat msg kvs =
                      trace <$> Debug tkv tlog st_root 1%nat msg kvs) /\
     (forall msg kvs, trace <$> Info tkv tlog st' 1%nat msg kvs =
                      trace <$> Info tkv tlog st_root 1%nat msg kvs) /\
     (forall msg err kvs, trace <$> Error tkv tlog st' 1%nat msg err kvs =
                          trace <$> Error tkv tlog st_root 1%nat msg err kvs)).
Proof.
  destruct (derive st_root 1%nat (DWith [VString "k"; VInt 1])) as [[st' q]|] eqn:Hd;
    [|discriminate Hd].
  exists st', q. split; [exact wf_st_root|]. split; [reflexivity|]. split; [reflexivity|].
  apply (derive_keeps_ancestor tkv tlog st_root 1%nat o_root (DWith [VString "k"; VInt 1])
           st' q wf_st_root eq_refl Hd).
Defined.

Lemma no_error_results_witness :
  objs st_root !! 1%nat = Some o_root /\ is_Some (cells st_root !! lvl o_root) /\
  (is_Some (Debug tkv tlog st_root 1%nat "m" [VInt 1]) /\
   Debug tkv tlog st_root 1%nat "m" [VInt 1] =
     Debug tkv (fun _ _ => Some 9%nat) st_root 1%nat "m" [VInt 1] /\
   is_Some (Info tkv tlog st_root 1%nat "m" [VInt 1]) /\
   Info tkv tlog st_root 1%nat "m" [VInt 1] =
     Info tkv (fun _ _ => Some 9%nat) st_root 1%nat "m" [VInt 1] /\
   is_Some (Error tkv tlog st_root 1%nat "m" None [VInt 1]) /\
   Error tkv tlog st_root 1%nat "m" None [VInt 1] =
     Error tkv (fun _ _ => Some 9%nat) st_root 1%nat "m" None [VInt 1] /\
   is_Some (SetLevel st_root 1%nat 3) /\ is_Some (With st_root 1%nat [VInt 1]) /\
   is_Some (Context st_root 1%nat [VString "id"; VInt 2]) /\
   is_Some (Metric st_root 1%nat 7%nat)).
Proof.
  split; [reflexivity|]. split; [eexists; reflexivity|].
  apply (no_error_results tkv tlog (fun _ _ => Some 9%nat) st_root 1%nat o_root "m" None
           [VInt 1] 3 [VString "id"; VInt 2] 7%nat); [reflexivity|eexists; reflexivity].
Defined.

Lemma threshold_never_none_witness :
  exists st : TState,
    run tkv [] tlog empty_state
      [OpNew 3%nat; OpDerive 1%nat (DWith [VString "k"; VInt 1]);
       OpSetLevel 2%nat 42; OpInfo 1%nat "up" []; OpSetLevel 1%nat (-7)] = Some st /\
    (forall p v, currentLevel st p = Some v -> v ∈ [Error_; Info_; Debug_] /\ v <> None_).
Proof.
  destruct (run tkv [] tlog empty_state
      [OpNew 3%nat; OpDerive 1%nat (DWith [VString "k"; VInt 1]);
       OpSetLevel 2%nat 42; OpInfo 1%nat "up" []; OpSetLevel 1%nat (-7)]) as [st|] eqn:Hrun;
    [|discriminate Hrun].
  exists st. split; [reflexivity|].
  apply (threshold_never_none tkv [] tlog _ st Hrun).
Defined.

Lemma With_nonstring_keys_new_instance_witness :
  wf st_root /\ objs st_root !! 1%nat = Some o_root /\ [VInt 42; VString "v"] <> [] /\
  Forall (fun kv => is_string kv.1 = false) (spec_pairs (spec_pad [VInt 42; VString "v"])) /\
  exists (st' : TState) q o', With st_root 1%nat [VInt 42; VString "v"] = Some (st', q) /\
    q <> 1%nat /\ next st' = S (next st_root) /\ objs st' !! q = Some o' /\
    args o' = args o_root.
Proof.
  assert (Hall : Forall (fun kv => is_string kv.1 = false)
                   (spec_pairs (spec_pad [VInt 42; VString "v"]))).
  { simpl. repeat constructor. }
  split; [exact wf_st_root|]. split; [reflexivity|]. split; [discriminate|].
  split; [exact Hall|].
  apply (With_nonstring_keys_new_instance st_root 1%nat o_root [VInt 42; VString "v"]
           wf_st_root eq_refl ltac:(discriminate) Hall).
Defined.

Lemma SetLevel_last_wins_witness :
  exists (stw : TState) ow,
    With st_root 1%nat [VString "k"; VInt 1] = Some (stw, 2%nat) /\
    objs stw !! 1%nat = Some o_root /\ objs stw !! 2%nat = Some ow /\ lvl ow = lvl o_root /\
    (st1 ← SetLevel stw 1%nat 3; SetLevel st1 2%nat 42) = SetLevel stw 2%nat 42.
Proof.
  do 2 eexists. split; [reflexivity|]. split; [reflexivity|]. split; [reflexivity|].
  split; [reflexivity|].
  eapply (SetLevel_last_wins _ 1%nat 2%nat o_root); reflexivity.
Defined.

Lemma SetLevel_read_back_witness :
  currentLevel st_root 1%nat = Some Info_ /\ Info_ ∈ [Error_; Info_; Debug_] /\
  SetLevel st_root 1%nat Info_ = Some st_root.
Proof.
  assert (Hin : Info_ ∈ [Error_; Info_; Debug_]) by (right; left).
  split; [reflexivity|]. split; [exact Hin|].
  apply (SetLevel_read_back st_root 1%nat Info_ eq_refl Hin).
Defined.

Lemma SetLevel_monotone_witness :
  exists (st1 st2 : TState),
    objs st_root !! 1%nat = Some o_root /\ 4 <= 7 /\
    SetLevel st_root 1%nat 4 = Some st1 /\ SetLevel st_root 1%nat 7 = Some st2 /\
    currentLevel st1 1%nat = Some 1 /\ currentLevel st2 1%nat = Some 5 /\ 1 <= 5.
Proof.
  do 2 eexists. split; [reflexivity|]. split; [lia|]. split; [reflexivity|].
  split; [reflexivity|]. split; [reflexivity|]. split; [reflexivity|].
  eapply (SetLevel_monotone st_root 1%nat o_root 4 7); [reflexivity|lia|reflexivity..].
Defined.

Lemma New_independent_root_witness :
  wf st_root /\ objs st_root !! 1%nat = Some o_root /\
  currentLevel (New (MetricT:=nat) [] 8%nat st_root).1 (New (MetricT:=nat) [] 8%nat st_root).2
    = Some Info_ /\
  currentLevel (New (MetricT:=nat) [] 8%nat st_root).1 1%nat = currentLevel st_root 1%nat /\
  (forall l st2, SetLevel (New (MetricT:=nat) [] 8%nat st_root).1
                          (New (MetricT:=nat) [] 8%nat st_root).2 l = Some st2 ->
     currentLevel st2 (New (MetricT:=nat) [] 8%nat st_root).2 = Some (normalize_level l) /\
     currentLevel st2 1%nat = currentLevel st_root 1%nat).
Proof.
  split; [exact wf_st_root|]. split; [reflexivity|].
  apply (New_independent_root [] 8%nat st_root 1%nat o_root wf_st_root eq_refl).
Defined.

Lemma gating_nested_witness :
  exists sd si se : TState,
    objs st_root !! 1%nat = Some o_root /\ cells st_root !! lvl o_root = Some 5 /\
    Debug tkv tlog st_root 1%nat "m" [] = Some sd /\ Info tkv tlog st_root 1%nat "m" [] = Some si /\
    Error tkv tlog st_root 1%nat "m" None [] = Some se /\
    (emitted st_root sd = 1%nat -> emitted st_root si = 1%nat /\ emitted st_root se = 1%nat) /\
    (emitted st_root si = 1%nat -> emitted st_root se = 1%nat).
Proof.
  do 3 eexists. do 5 (split; [reflexivity|]).
  apply (gating_nested tkv tlog st_root 1%nat o_root 5 "m" None []); reflexivity.
Defined.

Lemma With_twice_witness :
  exists (st1 st2 : TState) q1 q2,
    objs st_root !! 1%nat = Some o_root /\
    With st_root 1%nat [VString "a"; VInt 1] = Some (st1, q1) /\
    With st1 q1 [VInt 7; VString "x"; VString "b"] = Some (st2, q2) /\
    exists o2, objs st2 !! q2 = Some o2 /\
      args o2 = args o_root ++ surviving (spec_pad [VString "a"; VInt 1])
                ++ surviving (spec_pad [VInt 7; VString "x"; VString "b"]) /\
      ctx o2 = ctx o_root /\ metric o2 = metric o_root /\ lvl o2 = lvl o_root /\
      logger o2 = logger o_root.
Proof.
  do 4 eexists. split; [reflexivity|]. split; [reflexivity|]. split; [reflexivity|].
  eapply (With_twice st_root 1%nat o_root [VString "a"; VInt 1] [VInt 7; VString "x"; VString "b"]);
    reflexivity.
Defined.

Lemma fields_always_string_keyed_witness :
  exists st : TState,
    run tkv [] tlog empty_state
      [OpNew 3%nat; OpDerive 1%nat (DWith [VString "k"; VInt 1; VInt 5; VNil; VString "z"]);
       OpDerive 2%nat (DContext [VString "rid"; VInt 9])] = Some st /\
    (forall p o, objs st !! p = Some o -> kv_pairs_ok (args o) = true).
Proof.
  destruct (run tkv [] tlog empty_state
      [OpNew 3%nat; OpDerive 1%nat (DWith [VString "k"; VInt 1; VInt 5; VNil; VString "z"]);
       OpDerive 2%nat (DContext [VString "rid"; VInt 9])]) as [st|] eqn:Hrun;
    [|discriminate Hrun].
  exists st. split; [reflexivity|].
  apply (fields_always_string_keyed tkv [] tlog _ st Hrun).
Defined.

Lemma Context_With_commute_witness :
  exists (s1 s2 t1 t2 : TState) q1 q2 r1 r2,
    objs st_root !! 1%nat = Some o_root /\
    With st_root 1%nat [VString "k"; VInt 1] = Some (s1, q1) /\
    Context s1 q1 [VString "rid"; VInt 9] = Some (s2, q2) /\
    Context st_root 1%nat [VString "rid"; VInt 9] = Some (t1, r1) /\
    With t1 r1 [VString "k"; VInt 1] = Some (t2, r2) /\
    objs s2 !! q2 = objs t2 !! r2.
Proof.
  do 8 eexists. do 5 (split; [reflexivity|]).
  eapply (Context_With_commute st_root 1%nat o_root [VString "rid"; VInt 9] [VString "k"; VInt 1]);
    reflexivity.
Defined.


Lemma Metric_child_records_witness :
  exists (st1 : TState) q,
    objs st_root !! 1%nat = Some o_root /\ cells st_root !! lvl o_root = Some 5 /\
    Metric st_root 1%nat 7%nat = Some (st1, q) /\
    (exists st2 new, Info tkv tlog st1 q "m" [] = Some st2 /\ trace st2 = trace st1 ++ new /\
       metric_records new = [(7%nat, ctx o_root, 1)]) /\
    (exists st2 new, Error tkv tlog st1 q "m" None [] = Some st2 /\
       trace st2 = trace st1 ++ new /\ metric_records new = [(7%nat, ctx o_root, 1)]).
Proof.
  do 2 eexists. split; [reflexivity|]. split; [reflexivity|]. split; [reflexivity|].
  apply (Metric_child_records tkv tlog st_root 1%nat o_root 5 7%nat); reflexivity.
Defined.

Lemma With_string_keyed_verbatim_witness :
  exists (st1 : TState) q,
    objs st_root !! 1%nat = Some o_root /\
    kv_pairs_ok (pad_missing [VString "a"; VInt 1; VString "b"]) = true /\
    With st_root 1%nat [VString "a"; VInt 1; VString "b"] = Some (st1, q) /\
    exists o1, objs st1 !! q = Some o1 /\
      args o1 = args o_root ++ pad_missing [VString "a"; VInt 1; VString "b"].
Proof.
  do 2 eexists. split; [reflexivity|]. split; [reflexivity|]. split; [reflexivity|].
  apply (With_string_keyed_verbatim st_root 1%nat o_root [VString "a"; VInt 1; VString "b"]);
    reflexivity.
Defined.

Lemma level_tables_roundtrip_witness :
  levelToString !! Debug_ = Some "debug"%string /\ stringToLevel !! "debug"%string = Some Debug_ /\
  stringToLevel !! "info"%string = Some Info_ /\ levelToString !! Info_ = Some "info"%string.
Proof.
  split; [reflexivity|]. split; [apply (proj1 level_tables_roundtrip); reflexivity|].
  split; [reflexivity|]. apply (proj2 level_tables_roundtrip); reflexivity.
Defined.

